(** * A shallow embedding of [main.py] (Google Maps scraper) and its
    listing-discovery / per-entry extraction pipeline.

    Python strings are modelled as [list ascii]; Python exceptions as the
    [Err] type; the browser (Playwright page) as a read-only [Site] record
    describing what each locator returns; the script's effects as a
    writer-with-exceptions monad recording an event trace. *)

From Stdlib Require Import List Ascii String ZArith Bool Lia.
Import ListNotations.
Open Scope list_scope.

(* ------------------------------------------------------------------ *)
(** ** Python strings *)

Definition str := list ascii.
Definition s2l (s : string) : str := list_ascii_of_string s.

(** [str.isspace] on ASCII: \t \n \x0b \x0c \r, \x1c-\x1f and space. *)
Definition is_space (c : ascii) : bool :=
  let n := nat_of_ascii c in
  ((9 <=? n) && (n <=? 13)) || ((28 <=? n) && (n <=? 32)).

Definition is_digit (c : ascii) : bool :=
  let n := nat_of_ascii c in (48 <=? n) && (n <=? 57).

Definition digit_val (c : ascii) : Z := Z.of_nat (nat_of_ascii c - 48).

Fixpoint is_prefix (p s : str) : bool :=
  match p, s with
  | [], _ => true
  | a :: p', b :: s' => Ascii.eqb a b && is_prefix p' s'
  | _ :: _, [] => false
  end.

(** [sep in s] *)
Fixpoint contains (sep s : str) : bool :=
  is_prefix sep s ||
  match s with
  | [] => false
  | _ :: s' => contains sep s'
  end.

(** [s.split(sep)] for a non-empty [sep]: left-to-right scan for
    non-overlapping occurrences; [skip] counts the characters of a matched
    separator still to be dropped, [cur] is the current chunk reversed. *)
Fixpoint split_go (sep s : str) (skip : nat) (cur : str) : list str :=
  match s with
  | [] => [rev cur]
  | c :: s' =>
      match skip with
      | S k => split_go sep s' k cur
      | O =>
          if is_prefix sep s
          then rev cur :: split_go sep s' (pred (List.length sep)) []
          else split_go sep s' 0 (c :: cur)
      end
  end.

Definition py_split (sep s : str) : list str := split_go sep s 0 [].

(** [s.split()] (no argument): split on runs of whitespace, dropping
    empty strings. *)
Fixpoint split_ws_go (s : str) (cur : str) : list str :=
  match s with
  | [] => match cur with [] => [] | _ => [rev cur] end
  | c :: s' =>
      if is_space c
      then match cur with
           | [] => split_ws_go s' []
           | _ => rev cur :: split_ws_go s' []
           end
      else split_ws_go s' (c :: cur)
  end.

Definition py_split_ws (s : str) : list str := split_ws_go s [].

(** [s.replace(a, b)] for one-character [a] and a replacement [b]. *)
Definition py_replace_char (a : ascii) (b : str) (s : str) : str :=
  flat_map (fun c => if Ascii.eqb c a then b else [c]) s.

Fixpoint lstrip (s : str) : str :=
  match s with
  | c :: s' => if is_space c then lstrip s' else s
  | [] => []
  end.

(** [s.strip()] *)
Definition py_strip (s : str) : str := rev (lstrip (rev (lstrip s))).

Definition all_space (s : str) : bool := forallb is_space s.

(** Python's [x or ""] on an optional string: [None] and [""] are falsy. *)
Definition or_empty (x : option str) : str :=
  match x with
  | Some ((_ :: _) as s) => s
  | _ => []
  end.

(** [l[0]], [l[1]]: [None] is an [IndexError]. *)
Definition py_index {A} (l : list A) (i : nat) : option A := nth_error l i.

(** [l[-1]] of a non-empty list (every [split] result is non-empty). *)
Definition py_last (l : list str) : str := last l [].

(** [l[:t]] for an integer [t]: a negative [t] counts from the end. *)
Definition py_slice_to {A} (l : list A) (t : Z) : list A :=
  if (0 <=? t)%Z then firstn (Z.to_nat t) l
  else firstn (Z.to_nat (Z.of_nat (List.length l) + t)) l.

(* ------------------------------------------------------------------ *)
(** ** Python [float()] and [int()] on strings

    A float is represented by the exact value of its decimal literal,
    [(-1)^neg * m * 10^e]; rounding to binary64 is not modelled. The
    accepted syntax is that of Python's [float()]: surrounding whitespace,
    an optional sign, [digitpart] with single underscores between digits,
    [number ::= [digitpart] "." digitpart | digitpart ["."]], an optional
    exponent, and case-insensitive [inf], [infinity] and [nan]. *)

Inductive PyFloat :=
| PFin (neg : bool) (m : Z) (e : Z)
| PInf (neg : bool)
| PNaN.

Fixpoint digits_tail (s : str) : list ascii * str :=
  match s with
  | c :: s' =>
      if is_digit c then let (ds, r) := digits_tail s' in (c :: ds, r)
      else if Ascii.eqb c "_"%char then
        match s' with
        | d :: s'' =>
            if is_digit d then let (ds, r) := digits_tail s'' in (d :: ds, r)
            else ([], s)
        | [] => ([], s)
        end
      else ([], s)
  | [] => ([], [])
  end.

Definition digitpart (s : str) : option (list ascii * str) :=
  match s with
  | c :: s' => if is_digit c then let (ds, r) := digits_tail s' in Some (c :: ds, r)
               else None
  | [] => None
  end.

Definition digits_value (ds : list ascii) : Z :=
  fold_left (fun acc d => acc * 10 + digit_val d)%Z ds 0%Z.

(** [number]: integer digits, fraction digits, rest. *)
Definition parse_number (s : str) : option (list ascii * list ascii * str) :=
  match digitpart s with
  | Some (ip, r) =>
      match r with
      | c :: r' =>
          if Ascii.eqb c "."%char then
            match digitpart r' with
            | Some (fp, r'') => Some (ip, fp, r'')
            | None => Some (ip, [], r')
            end
          else Some (ip, [], r)
      | [] => Some (ip, [], r)
      end
  | None =>
      match s with
      | c :: r' =>
          if Ascii.eqb c "."%char then
            match digitpart r' with
            | Some (fp, r'') => Some ([], fp, r'')
            | None => None
            end
          else None
      | [] => None
      end
  end.

Definition parse_sign (s : str) : bool * str :=
  match s with
  | c :: s' =>
      if Ascii.eqb c "-"%char then (true, s')
      else if Ascii.eqb c "+"%char then (false, s')
      else (false, s)
  | [] => (false, s)
  end.

(** optional exponent: [Some (value, rest)]; [None] on a malformed one *)
Definition parse_exponent (s : str) : option (Z * str) :=
  match s with
  | c :: s' =>
      if Ascii.eqb c "e"%char || Ascii.eqb c "E"%char then
        let (neg, r) := parse_sign s' in
        match digitpart r with
        | Some (ds, r') =>
            Some ((if neg then - digits_value ds else digits_value ds)%Z, r')
        | None => None
        end
      else Some (0%Z, s)
  | [] => Some (0%Z, s)
  end.

Definition lower (c : ascii) : ascii :=
  let n := nat_of_ascii c in
  if (65 <=? n) && (n <=? 90) then ascii_of_nat (n + 32) else c.

Definition special_float (neg : bool) (s : str) : option PyFloat :=
  let l := map lower s in
  if is_prefix (s2l "infinity") l && all_space (skipn 8 s) then Some (PInf neg)
  else if is_prefix (s2l "inf") l && all_space (skipn 3 s) then Some (PInf neg)
  else if is_prefix (s2l "nan") l && all_space (skipn 3 s) then Some PNaN
  else None.

(** [float(s)]; [None] is a [ValueError]. *)
Definition py_float (s : str) : option PyFloat :=
  let (neg, r) := parse_sign (lstrip s) in
  match parse_number r with
  | Some (ip, fp, r1) =>
      match parse_exponent r1 with
      | Some (ex, r2) =>
          if all_space r2
          then Some (PFin neg (digits_value (ip ++ fp))
                          (ex - Z.of_nat (List.length fp))%Z)
          else None
      | None => None
      end
  | None => special_float neg r
  end.

(** [int(s)] (base 10); [None] is a [ValueError]. *)
Definition py_int (s : str) : option Z :=
  let (neg, r) := parse_sign (lstrip s) in
  match digitpart r with
  | Some (ds, r') =>
      if all_space r'
      then Some (if neg then (- digits_value ds)%Z else digits_value ds)
      else None
  | None => None
  end.

(* ------------------------------------------------------------------ *)
(** ** Exceptions, events and the effect monad *)

(** Exceptions the script can raise. [TimeoutError] and [StrictModeError]
    are Playwright's errors for a locator with no match (after the default
    wait) and for an action on a locator matching several elements. *)
Inductive Err :=
| TimeoutError
| StrictModeError
| ValueError
| IndexError
| AttributeError
| SystemExit (code : Z).

(** [except Exception]: everything but [SystemExit]. *)
Definition is_exception (e : Err) : bool :=
  match e with SystemExit _ => false | _ => true end.

(** Outcome of a computation: a value, a raised exception, or [Stuck] when
    the modelled observations run out while the loop would go on. *)
Inductive Res (A : Type) :=
| Ok (a : A)
| Raise (e : Err)
| Stuck.
Arguments Ok {A} a.
Arguments Raise {A} e.
Arguments Stuck {A}.

(** Entries of the results panel are identified by numbers; a listing
    handle is either the place link itself or its parent ([xpath=..]). *)
Inductive Handle :=
| Anchor (id : nat)
| Parent (id : nat).

(** Messages printed by the script. *)
Inductive Msg :=
| MsgNoInput
| MsgQuery (index : nat) (query : str)
| MsgCurrently (count : Z)
| MsgTotal (n : nat)
| MsgAllAvailable (n : nat)
| MsgError (e : Err).

Record Business := mkBusiness {
  name : option str;
  address : option str;
  website : option str;
  phone_number : option str;
  reviews_count : option Z;
  reviews_average : option PyFloat;
  latitude : option PyFloat;
  longitude : option PyFloat
}.

Inductive Event :=
| EvPrint (m : Msg)
| EvLaunch
| EvGoto (url : str)
| EvFill (q : str)
| EvPressEnter
| EvHover
| EvScroll
| EvClick (h : Handle)
| EvSaveExcel (file : str) (rows : list Business)
| EvSaveCsv (file : str) (rows : list Business)
| EvClose.

(** Writer-with-exceptions monad: the result and the events emitted. *)
Definition M (A : Type) : Type := (Res A * list Event)%type.

Definition ret {A} (a : A) : M A := (Ok a, []).
Definition raise {A} (e : Err) : M A := (Raise e, []).
Definition emit (ev : Event) : M unit := (Ok tt, [ev]).

Definition bind {A B} (m : M A) (f : A -> M B) : M B :=
  match m with
  | (Ok a, t) => let r := f a in (fst r, t ++ snd r)
  | (Raise e, t) => (Raise e, t)
  | (Stuck, t) => (Stuck, t)
  end.

Notation "x <- m ;; k" := (bind m (fun x => k))
  (at level 61, m at next level, right associativity).
Notation "m ;; k" := (bind m (fun _ => k))
  (at level 61, right associativity).

(** [try: m except Exception as e: handler e] *)
Definition try_except {A} (m : M A) (handler : Err -> M A) : M A :=
  match m with
  | (Raise e, t) =>
      if is_exception e then let r := handler e in (fst r, t ++ snd r)
      else (Raise e, t)
  | other => other
  end.

Definition of_option {A} (e : Err) (o : option A) : M A :=
  match o with Some a => ret a | None => raise e end.

(* ------------------------------------------------------------------ *)
(** ** The browser page *)

(** A locator's matches: for [text_content()] the text of each matching
    element, for [get_attribute(a)] the attribute of each. *)
Definition Matches := list (option str).

(** [locator.text_content()] / [locator.get_attribute(..)]: Playwright
    waits for a match (raising [TimeoutError] when there is none) and is
    strict (raising when several elements match). *)
Definition read_one (ms : Matches) : M (option str) :=
  match ms with
  | [] => raise TimeoutError
  | [x] => ret x
  | _ :: _ :: _ => raise StrictModeError
  end.

(** [locator.count()] *)
Definition loc_count (ms : Matches) : Z := Z.of_nat (List.length ms).

(** The detail view shown after clicking a listing. *)
Record Detail := mkDetail {
  d_address : Matches;       (* button[data-item-id=address] div.fontBodyMedium *)
  d_website : Matches;       (* a[data-item-id=authority] div.fontBodyMedium *)
  d_phone : Matches;         (* button[data-item-id*=phone:tel:] div.fontBodyMedium *)
  d_review_spans : Matches;  (* button[jsaction=pane.reviewChart.moreReviews] span *)
  d_rating_imgs : Matches;   (* aria-label of div[jsaction=..moreReviews] div[role=img] *)
  d_url : str                (* page.url *)
}.

(** What the site shows: for each (stripped) query, whether a place link
    appears to hover over, and the panel's entries after each scroll;
    for each handle, its aria-label, whether clicking it succeeds, and the
    detail view it opens. *)
Record Site := mkSite {
  hover_ok : str -> bool;
  panels : str -> list (list nat);
  label : Handle -> option str;
  click_ok : Handle -> bool;
  detail : Handle -> Detail
}.

(* ------------------------------------------------------------------ *)
(** ** [extract_coordinates_from_url] *)

Definition extract_coordinates_from_url (url : str) : M (PyFloat * PyFloat) :=
  let coordinates := hd [] (py_split (s2l "/") (py_last (py_split (s2l "/@") url))) in
  lat <- of_option ValueError (py_float (hd [] (py_split (s2l ",") coordinates)));;
  tok1 <- of_option IndexError (py_index (py_split (s2l ",") coordinates) 1);;
  lng <- of_option ValueError (py_float tok1);;
  ret (lat, lng).

(* ------------------------------------------------------------------ *)
(** ** Per-listing extraction (the [Business(...)] constructor call) *)

(** [locator.text_content() or ""] *)
Definition text_or_empty (ms : Matches) : M str :=
  x <- read_one ms;; ret (or_empty x).

(** [int(loc.text_content().split()[0].replace(',', '')) if loc.count() > 0 else None] *)
Definition read_reviews_count (ms : Matches) : M (option Z) :=
  if (loc_count ms >? 0)%Z then
    x <- read_one ms;;
    s <- of_option AttributeError x;;
    tok <- of_option IndexError (py_index (py_split_ws s) 0);;
    n <- of_option ValueError (py_int (py_replace_char ","%char [] tok));;
    ret (Some n)
  else ret None.

(** [float(loc.get_attribute('aria-label').split()[0].replace(',', '.')) if loc.count() > 0 else None] *)
Definition read_reviews_average (ms : Matches) : M (option PyFloat) :=
  if (loc_count ms >? 0)%Z then
    x <- read_one ms;;
    s <- of_option AttributeError x;;
    tok <- of_option IndexError (py_index (py_split_ws s) 0);;
    f <- of_option ValueError (py_float (py_replace_char ","%char (s2l ".") tok));;
    ret (Some f)
  else ret None.

(** The keyword arguments are evaluated left to right. *)
Definition build_business (site : Site) (h : Handle) : M Business :=
  let d := detail site h in
  let nm := or_empty (label site h) in
  addr <- text_or_empty (d_address d);;
  web <- text_or_empty (d_website d);;
  phone <- text_or_empty (d_phone d);;
  rc <- read_reviews_count (d_review_spans d);;
  ra <- read_reviews_average (d_rating_imgs d);;
  ret (mkBusiness (Some nm) (Some addr) (Some web) (Some phone) rc ra None None).

Definition set_coordinates (b : Business) (c : PyFloat * PyFloat) : Business :=
  mkBusiness (name b) (address b) (website b) (phone_number b)
             (reviews_count b) (reviews_average b) (Some (fst c)) (Some (snd c)).

(** Body of the [try] block for one listing. *)
Definition process_entry (site : Site) (h : Handle) : M Business :=
  emit (EvClick h);;
  (if click_ok site h then ret tt else raise TimeoutError);;
  b <- build_business site h;;
  c <- extract_coordinates_from_url (d_url (detail site h));;
  ret (set_coordinates b c).

(** [for listing in listings: try: ... business_list.append(business)
    except Exception as e: print(...)] *)
Fixpoint collect (site : Site) (ls : list Handle) (acc : list Business)
  : M (list Business) :=
  match ls with
  | [] => ret acc
  | h :: ls' =>
      acc' <- try_except (b <- process_entry site h;; ret (acc ++ [b]))
                         (fun e => emit (EvPrint (MsgError e));; ret acc);;
      collect site ls' acc'
  end.

(* ------------------------------------------------------------------ *)
(** ** The scrolling loop ([while True]); [ps] are the panel's entries as
    seen after each scroll. *)

Fixpoint scan (total prev : Z) (ps : list (list nat)) : M (list Handle) :=
  match ps with
  | [] => (Stuck, [])
  | p :: ps' =>
      emit EvScroll;;
      let count := Z.of_nat (List.length p) in
      if (total <=? count)%Z then
        let listings := map Parent (py_slice_to p total) in
        emit (EvPrint (MsgTotal (List.length listings)));;
        ret listings
      else if (count =? prev)%Z then
        let listings := map Anchor p in
        emit (EvPrint (MsgAllAvailable (List.length listings)));;
        ret listings
      else
        emit (EvPrint (MsgCurrently count));;
        scan total count ps'
  end.

(* ------------------------------------------------------------------ *)
(** ** Queries and [main] *)

Definition file_name (q : str) : str :=
  s2l "google_maps_data_" ++ py_replace_char " "%char (s2l "_") q.

Definition process_query (site : Site) (total : Z) (idx : nat) (q : str) : M unit :=
  let q' := py_strip q in
  emit (EvPrint (MsgQuery idx q'));;
  emit (EvFill q');;
  emit EvPressEnter;;
  (if hover_ok site q' then emit EvHover else raise TimeoutError);;
  listings <- scan total 0 (panels site q');;
  batch <- collect site listings [];;
  emit (EvSaveExcel (file_name q') batch);;
  emit (EvSaveCsv (file_name q') batch).

Fixpoint run_queries (site : Site) (total : Z) (idx : nat) (qs : list str) : M unit :=
  match qs with
  | [] => ret tt
  | q :: qs' => process_query site total idx q;; run_queries site total (S idx) qs'
  end.

(** [[args.search] if args.search else []] *)
Definition initial_search_list (search : option str) : list str :=
  match search with
  | Some ((_ :: _) as s) => [s]
  | _ => []
  end.

(** [args.total if args.total else 1_000_000] *)
Definition effective_total (total : option Z) : Z :=
  match total with
  | Some t => if (t =? 0)%Z then 1000000%Z else t
  | None => 1000000%Z
  end.

(** [main()]: [input_file] is [None] when [input.txt] does not exist and
    otherwise holds [file.readlines()]. *)
Definition main_prog (search : option str) (total : option Z)
    (input_file : option (list str)) (site : Site) : M unit :=
  let total := effective_total total in
  search_list <-
    (match initial_search_list search with
     | [] =>
         let lines := match input_file with Some ls => ls | None => [] end in
         match lines with
         | [] => emit (EvPrint MsgNoInput);; raise (SystemExit 0)
         | _ => ret lines
         end
     | sl => ret sl
     end);;
  emit EvLaunch;;
  emit (EvGoto (s2l "https://www.google.com/maps"));;
  run_queries site total 0 search_list;;
  emit EvClose.

(** Exit status of the process: [sys.exit()] exits with 0, an uncaught
    exception with 1; [None] when the run does not end. *)
Definition exit_status (r : Res unit) : option Z :=
  match r with
  | Ok _ => Some 0%Z
  | Raise (SystemExit c) => Some c
  | Raise _ => Some 1%Z
  | Stuck => None
  end.

(* ------------------------------------------------------------------ *)
(** ** [BusinessList.save_to_excel] / [save_to_csv]: the paths written *)





(* ================================================================== *)
(** * Lemmas about the string primitives *)

Definition marker : str := s2l "/@".

Lemma not_in_existsb (c : ascii) (x : str) :
  ~ In c x -> existsb (Ascii.eqb c) x = false.
Proof.
  intros Hn. destruct (existsb (Ascii.eqb c) x) eqn:E; [|reflexivity].
  apply existsb_exists in E as [a [Ha Heq]].
  apply Ascii.eqb_eq in Heq. subst. contradiction.
Qed.

Lemma split_go_nonempty (sep s : str) (k : nat) (cur : str) :
  split_go sep s k cur <> [].
Proof.
  revert k cur. induction s as [|c s IH]; intros k cur; simpl.
  - discriminate.
  - destruct k; [destruct (is_prefix sep (c :: s))|]; auto; discriminate.
Qed.

(** Splitting on one character [c] passes over a chunk free of [c]. *)
Lemma split1_skip (c : ascii) (x y cur : str) :
  ~ In c x -> split_go [c] (x ++ y) 0 cur = split_go [c] y 0 (rev x ++ cur).
Proof.
  revert cur. induction x as [|a x IH]; intros cur Hn; simpl; [reflexivity|].
  assert (Hca : Ascii.eqb c a = false).
  { apply Ascii.eqb_neq. intros ->. apply Hn. left. reflexivity. }
  rewrite Hca. simpl. rewrite IH by (intros Hi; apply Hn; right; exact Hi).
  rewrite <- app_assoc. reflexivity.
Qed.

Lemma split1_hit (c : ascii) (y cur : str) :
  split_go [c] (c :: y) 0 cur = rev cur :: split_go [c] y 0 [].
Proof. simpl. rewrite Ascii.eqb_refl. reflexivity. Qed.

Lemma split1_hd (c : ascii) (y cur : str) :
  hd [] (split_go [c] y 0 cur) = rev cur ++ hd [] (split_go [c] y 0 []).
Proof.
  revert cur. induction y as [|a y IH]; intros cur; simpl.
  - rewrite app_nil_r. reflexivity.
  - destruct (Ascii.eqb c a && true); simpl.
    + rewrite app_nil_r. reflexivity.
    + rewrite (IH (a :: cur)), (IH [a]). simpl. rewrite <- app_assoc. reflexivity.
Qed.

(** A string with no occurrence of [sep] is not split. *)
Lemma split_go_free (sep t cur : str) :
  contains sep t = false -> split_go sep t 0 cur = [rev cur ++ t].
Proof.
  revert cur. induction t as [|a t IH]; intros cur Hc; simpl in *.
  - destruct sep; [discriminate|]. rewrite app_nil_r. reflexivity.
  - apply orb_false_iff in Hc as [Hp Hc]. rewrite Hp, IH by exact Hc.
    simpl. rewrite <- app_assoc. reflexivity.
Qed.

Lemma contains_app_skip (c : ascii) (sep' x y : str) :
  ~ In c x -> contains (c :: sep') (x ++ y) = contains (c :: sep') y.
Proof.
  induction x as [|a x IH]; intros Hn; simpl; [reflexivity|].
  assert (Hca : Ascii.eqb c a = false).
  { apply Ascii.eqb_neq. intros ->. apply Hn. left. reflexivity. }
  rewrite Hca. simpl. apply IH. intros Hi. apply Hn. right. exact Hi.
Qed.

Lemma last_cons_nonempty (x : str) (l : list str) :
  l <> [] -> last (x :: l) [] = last l [].
Proof. destruct l; [contradiction|reflexivity]. Qed.

Lemma split_go_cons0 (sep s : str) (c : ascii) (cur : str) :
  split_go sep (c :: s) 0 cur =
  if is_prefix sep (c :: s)
  then rev cur :: split_go sep s (pred (List.length sep)) []
  else split_go sep s 0 (c :: cur).
Proof. reflexivity. Qed.

Lemma split_go_marker_hit (t cur : str) :
  split_go marker ("/"%char :: "@"%char :: t) 0 cur = rev cur :: split_go marker t 0 [].
Proof. reflexivity. Qed.

(** [s.split('/@')[-1]] is the text after the last marker. *)
Lemma split_marker_last (p t : str) :
  contains marker t = false ->
  py_last (py_split marker (p ++ marker ++ t)) = t.
Proof.
  intros Ht. unfold py_split, py_last.
  enough (G : forall cur, last (split_go marker (p ++ marker ++ t) 0 cur) [] = t)
    by apply G.
  induction p as [p IH] using (induction_ltof1 _ (@List.length ascii)).
  intros cur. destruct p as [|a p].
  - change ([] ++ marker ++ t) with ("/"%char :: "@"%char :: t).
    rewrite split_go_marker_hit, split_go_free by exact Ht. reflexivity.
  - cbn [app]. rewrite split_go_cons0.
    destruct (is_prefix marker (a :: p ++ marker ++ t)) eqn:E.
    + destruct p as [|b p].
      * simpl in E. rewrite andb_false_r in E. discriminate.
      * change (pred (List.length marker)) with 1. cbn [app split_go].
        rewrite last_cons_nonempty by apply split_go_nonempty.
        apply IH. unfold ltof. simpl. lia.
    + apply IH. unfold ltof. simpl. lia.
Qed.

Lemma not_in_app (c : ascii) (x y : str) : ~ In c x -> ~ In c y -> ~ In c (x ++ y).
Proof. intros Hx Hy Hi. apply in_app_or in Hi as [Hi|Hi]; contradiction. Qed.

Lemma not_in_single (c d : ascii) : c <> d -> ~ In c [d].
Proof. intros Hcd [Hi|[]]. apply Hcd. symmetry. exact Hi. Qed.

Lemma slash_comma : "/"%char <> ","%char.
Proof. discriminate. Qed.

Lemma comma_slash : ","%char <> "/"%char.
Proof. discriminate. Qed.

(** The parser on a URL [p/@<lat>,<lng>,<rest>] whose [rest] has no
    further marker. *)
Lemma extract_coords_shape (p lat lng rest : str) (x y : PyFloat) :
  ~ In "/"%char lat -> ~ In ","%char lat ->
  ~ In "/"%char lng -> ~ In ","%char lng ->
  contains marker rest = false ->
  py_float lat = Some x -> py_float lng = Some y ->
  fst (extract_coordinates_from_url
         (p ++ marker ++ lat ++ [","%char] ++ lng ++ [","%char] ++ rest))
  = Ok (x, y).
Proof.
  intros Hs1 Hc1 Hs2 Hc2 Hr Hx Hy.
  assert (Hsc : ~ In "/"%char [","%char]) by (apply not_in_single, slash_comma).
  assert (Hcs : ~ In ","%char ["/"%char]) by (apply not_in_single, comma_slash).
  unfold extract_coordinates_from_url.
  rewrite split_marker_last.
  2:{ change marker with ("/"%char :: ["@"%char]).
      rewrite !contains_app_skip by assumption. exact Hr. }
  set (r' := hd [] (py_split (s2l "/") rest)).
  assert (Hseg : hd [] (py_split (s2l "/") (lat ++ [","%char] ++ lng ++ [","%char] ++ rest))
                 = lat ++ ","%char :: lng ++ ","%char :: r').
  { unfold r', py_split. change (s2l "/") with ["/"%char].
    replace (lat ++ [","%char] ++ lng ++ [","%char] ++ rest)
      with ((lat ++ ","%char :: lng ++ [","%char]) ++ rest)
      by (rewrite <- !app_assoc; simpl; rewrite <- !app_assoc; reflexivity).
    rewrite split1_skip.
    2:{ apply not_in_app; [assumption|].
        apply (not_in_app _ [","%char] (lng ++ [","%char])); [assumption|].
        apply not_in_app; assumption. }
    rewrite app_nil_r, split1_hd, rev_involutive, <- !app_assoc.
    simpl. rewrite <- !app_assoc. reflexivity. }
  rewrite Hseg.
  assert (Htoks : py_split (s2l ",") (lat ++ ","%char :: lng ++ ","%char :: r')
                  = lat :: lng :: py_split (s2l ",") r').
  { unfold py_split. change (s2l ",") with [","%char].
    rewrite split1_skip by assumption. rewrite app_nil_r, split1_hit, rev_involutive.
    rewrite split1_skip by assumption. rewrite app_nil_r, split1_hit, rev_involutive.
    reflexivity. }
  rewrite Htoks.
  cbv [bind of_option ret raise fst snd py_index nth_error hd].
  rewrite Hx, Hy. reflexivity.
Qed.

(* ================================================================== *)
(** * Lemmas about the effect monad *)

(** A computation that neither calls [sys.exit] nor gets stuck: whatever
    it raises is caught by [except Exception]. *)
Definition no_exit {A} (m : M A) : Prop :=
  match fst m with
  | Ok _ => True
  | Raise e => is_exception e = true
  | Stuck => False
  end.

Lemma no_exit_ret {A} (a : A) : no_exit (ret a).
Proof. exact I. Qed.

Lemma no_exit_emit (ev : Event) : no_exit (emit ev).
Proof. exact I. Qed.

Lemma no_exit_raise {A} (e : Err) : is_exception e = true -> no_exit (@raise A e).
Proof. intros H. exact H. Qed.

Lemma no_exit_of_option {A} (e : Err) (o : option A) :
  is_exception e = true -> no_exit (of_option e o).
Proof. intros H. destruct o; [exact I | exact H]. Qed.

Lemma no_exit_read_one (ms : Matches) : no_exit (read_one ms).
Proof. destruct ms as [|x [|y ms]]; reflexivity. Qed.

Lemma no_exit_bind {A B} (m : M A) (f : A -> M B) :
  no_exit m -> (forall a, no_exit (f a)) -> no_exit (bind m f).
Proof.
  intros Hm Hf. destruct m as [[a|e|] t]; unfold no_exit in *; simpl in *; auto.
  apply Hf.
Qed.

Ltac solve_no_exit :=
  repeat match goal with
  | |- forall _, _ => intro
  | |- no_exit (bind _ _) => apply no_exit_bind
  | |- no_exit (if ?c then _ else _) => destruct c
  | |- no_exit (ret _) => apply no_exit_ret
  | |- no_exit (emit _) => apply no_exit_emit
  | |- no_exit (raise _) => apply no_exit_raise; reflexivity
  | |- no_exit (of_option _ _) => apply no_exit_of_option; reflexivity
  | |- no_exit (read_one _) => apply no_exit_read_one
  end.

Lemma process_entry_no_exit (site : Site) (h : Handle) : no_exit (process_entry site h).
Proof.
  unfold process_entry, build_business, text_or_empty, read_reviews_count,
    read_reviews_average, extract_coordinates_from_url.
  solve_no_exit.
Qed.

Lemma bind_ok_inv {A B} (m : M A) (f : A -> M B) (b : B) :
  fst (bind m f) = Ok b -> exists a, fst m = Ok a /\ fst (f a) = Ok b.
Proof.
  destruct m as [[a|e|] t]; simpl; intros H; [eauto | discriminate | discriminate].
Qed.

(* ================================================================== *)
(** * The Record Collector *)

(** The records of the successful entries, in order. *)
Fixpoint successes (rs : list (Res Business)) : list Business :=
  match rs with
  | [] => []
  | Ok b :: rs' => b :: successes rs'
  | _ :: rs' => successes rs'
  end.

Definition entry_result (site : Site) (h : Handle) : Res Business :=
  fst (process_entry site h).

Lemma collect_result (site : Site) (ls : list Handle) (acc : list Business) :
  fst (collect site ls acc) = Ok (acc ++ successes (map (entry_result site) ls)).
Proof.
  revert acc. induction ls as [|h ls IH]; intros acc.
  - simpl. rewrite app_nil_r. reflexivity.
  - cbn [collect map]. pose proof (process_entry_no_exit site h) as Hne.
    unfold entry_result.
    destruct (process_entry site h) as [[b|e|] t]; unfold no_exit in Hne;
      cbn [fst] in Hne.
    + cbn [bind try_except ret fst snd successes].
      rewrite IH, <- app_assoc. reflexivity.
    + cbn [bind try_except ret emit fst snd successes]. rewrite Hne.
      cbn [fst snd]. apply IH.
    + contradiction.
Qed.

(* ================================================================== *)
(** * The scrolling loop *)

Definition count_of (p : list nat) : Z := Z.of_nat (List.length p).

(** Every observed count stays below the target and differs from the
    previous one: the loop keeps scanning. *)
Fixpoint grows_below (t prev : Z) (pre : list (list nat)) : Prop :=
  match pre with
  | [] => True
  | p :: pre' =>
      (count_of p < t)%Z /\ count_of p <> prev /\ grows_below t (count_of p) pre'
  end.

Fixpoint last_count (prev : Z) (pre : list (list nat)) : Z :=
  match pre with
  | [] => prev
  | p :: pre' => last_count (count_of p) pre'
  end.

Lemma scan_grow (t prev : Z) (pre ps : list (list nat)) :
  grows_below t prev pre ->
  fst (scan t prev (pre ++ ps)) = fst (scan t (last_count prev pre) ps).
Proof.
  revert prev. induction pre as [|p pre IH]; intros prev Hg; [reflexivity|].
  destruct Hg as [Hlt [Hne Hg]]. unfold count_of in *. simpl.
  replace (t <=? Z.of_nat (List.length p))%Z with false
    by (symmetry; apply Z.leb_gt; lia).
  replace (Z.of_nat (List.length p) =? prev)%Z with false
    by (symmetry; apply Z.eqb_neq; exact Hne).
  simpl. apply IH. exact Hg.
Qed.

Lemma process_entry_ok_inv (site : Site) (h : Handle) (b : Business) :
  fst (process_entry site h) = Ok b ->
  exists b0 c, fst (build_business site h) = Ok b0 /\
               fst (extract_coordinates_from_url (d_url (detail site h))) = Ok c /\
               b = set_coordinates b0 c.
Proof.
  unfold process_entry. intros H.
  apply bind_ok_inv in H as [? [_ H]].
  apply bind_ok_inv in H as [? [_ H]].
  apply bind_ok_inv in H as [b0 [Hb H]].
  apply bind_ok_inv in H as [c [Hc H]].
  simpl in H. injection H as <-. eauto.
Qed.

Lemma Forall_successes (site : Site) (P : Business -> Prop) (ls : list Handle) :
  (forall h b, entry_result site h = Ok b -> P b) ->
  Forall P (successes (map (entry_result site) ls)).
Proof.
  intros HP. induction ls as [|h ls IH]; simpl; [constructor|].
  destruct (entry_result site h) eqn:E; [constructor; [eapply HP; exact E|]|..];
    exact IH.
Qed.

Lemma build_business_ok_inv (site : Site) (h : Handle) (b0 : Business) :
  fst (build_business site h) = Ok b0 ->
  exists addr web phone rc ra,
    fst (text_or_empty (d_address (detail site h))) = Ok addr /\
    fst (text_or_empty (d_website (detail site h))) = Ok web /\
    fst (text_or_empty (d_phone (detail site h))) = Ok phone /\
    fst (read_reviews_count (d_review_spans (detail site h))) = Ok rc /\
    fst (read_reviews_average (d_rating_imgs (detail site h))) = Ok ra /\
    b0 = mkBusiness (Some (or_empty (label site h))) (Some addr) (Some web)
                    (Some phone) rc ra None None.
Proof.
  unfold build_business. intros H.
  apply bind_ok_inv in H as [addr [Ha H]].
  apply bind_ok_inv in H as [web [Hw H]].
  apply bind_ok_inv in H as [phone [Hp H]].
  apply bind_ok_inv in H as [rc [Hc H]].
  apply bind_ok_inv in H as [ra [Hr H]].
  simpl in H. injection H as <-.
  exists addr, web, phone, rc, ra. repeat split; assumption.
Qed.

Lemma text_or_empty_single (x : option str) :
  text_or_empty [x] = (Ok (or_empty x), []).
Proof. reflexivity. Qed.

(** The region of a Python [split('/@')[-1].split('/')[0]]. *)
Definition coord_segment (url : str) : str :=
  hd [] (py_split (s2l "/") (py_last (py_split marker url))).

(* ================================================================== *)
(** * A concrete site *)

Definition ex_url : str :=
  s2l "https://www.google.com/maps/place/Cafe/@12.34,-56.78,17z/data=!3m1".

Definition good_detail : Detail :=
  mkDetail [Some (s2l "1 Main St")] [Some (s2l "cafe.example")]
           [Some (s2l "+1 555 0100")] [Some (s2l "1,234 reviews")]
           [Some (s2l "4,5 stars")] ex_url.

(** Entry 2's review count cannot be parsed: [int('many')] raises. *)
Definition bad_detail : Detail :=
  mkDetail [Some (s2l "2 Side St")] [Some (s2l "bar.example")]
           [Some (s2l "+1 555 0199")] [Some (s2l "many reviews")]
           [Some (s2l "4,0 stars")] ex_url.

Definition handle_id (h : Handle) : nat :=
  match h with Anchor n | Parent n => n end.

(** A search for "rare town" shows no place link at all. *)
Definition ex_site : Site :=
  mkSite (fun q => if list_eq_dec ascii_dec q (s2l "rare town") then false else true)
         (fun _ => [seq 1 3; seq 1 3])
         (fun h => Some (s2l "Place " ++ [ascii_of_nat (48 + handle_id h)]))
         (fun _ => true)
         (fun h => if Nat.eqb (handle_id h) 2 then bad_detail else good_detail).

(** The record extracted from a [good_detail] entry with number [n]. *)
Definition good_record (n : nat) : Business :=
  mkBusiness (Some (s2l "Place " ++ [ascii_of_nat (48 + n)]))
             (Some (s2l "1 Main St")) (Some (s2l "cafe.example"))
             (Some (s2l "+1 555 0100")) (Some 1234%Z)
             (Some (PFin false 45 (-1))) (Some (PFin false 1234 (-2)))
             (Some (PFin true 5678 (-2))).

(** [ex_site] with every entry opening the detail view [d]. *)
Definition site_with (d : Detail) : Site :=
  mkSite (hover_ok ex_site) (panels ex_site) (label ex_site) (click_ok ex_site)
         (fun _ => d).

Definition untrimmed_detail : Detail :=
  mkDetail [Some (s2l " 1 Main St ")] [Some (s2l "cafe.example")]
           [Some (s2l "+1 555 0100")] [] [] ex_url.

Definition no_address_detail : Detail :=
  mkDetail [] [Some (s2l "cafe.example")]
           [Some (s2l "+1 555 0100")] [] [] ex_url.

(* ================================================================== *)
(** * Claims *)

(** C1 (as amended): with a positive target [t], starting from
    [previouslyCounted = 0], the loop keeps scanning while each re-count is
    below [t] and differs from the previous one; at the first re-count that
    reaches [t] it ends with the first [t] entries, each resolved to its
    parent ([xpath=..]); at the first re-count equal to the previous one it
    ends with all enumerated entries as they are; when neither ever
    happens it never ends. The counts 3, 7, 7 (target 20) give 7 entries,
    the counts 5, 12, 25 (target 20) give 20. *)
Theorem discovery_loop_done (t : Z) (pre : list (list nat)) (p : list nat)
    (post : list (list nat)) (Hg : grows_below t 0 pre) :
  ((0 < t <= count_of p)%Z ->
     fst (scan t 0 (pre ++ p :: post)) = Ok (map Parent (firstn (Z.to_nat t) p)) /\
     Z.of_nat (List.length (map Parent (firstn (Z.to_nat t) p))) = t) /\
  ((count_of p < t)%Z -> count_of p = last_count 0 pre ->
     fst (scan t 0 (pre ++ p :: post)) = Ok (map Anchor p)) /\
  ((count_of p < t)%Z -> count_of p <> last_count 0 pre ->
     fst (scan t 0 (pre ++ p :: post)) = fst (scan t (count_of p) post)) /\
  (forall ps, grows_below t 0 ps -> fst (scan t 0 ps) = Stuck) /\
  fst (scan 20 0 [seq 1 3; seq 1 7; seq 1 7]) = Ok (map Anchor (seq 1 7)) /\
  (exists l, fst (scan 20 0 [seq 1 5; seq 1 12; seq 1 25]) = Ok l /\ List.length l = 20%nat).
Proof.
  rewrite scan_grow by exact Hg. unfold count_of.
  split; [|split; [|split; [|split; [|split]]]].
  - intros [Ht Hle]. simpl.
    replace (t <=? Z.of_nat (List.length p))%Z with true
      by (symmetry; apply Z.leb_le; exact Hle).
    unfold py_slice_to.
    replace (0 <=? t)%Z with true by (symmetry; apply Z.leb_le; lia).
    simpl. split; [reflexivity|].
    rewrite length_map, length_firstn. lia.
  - intros Hlt Heq. simpl.
    replace (t <=? Z.of_nat (List.length p))%Z with false
      by (symmetry; apply Z.leb_gt; exact Hlt).
    rewrite Heq, Z.eqb_refl. reflexivity.
  - intros Hlt Hne. simpl.
    replace (t <=? Z.of_nat (List.length p))%Z with false
      by (symmetry; apply Z.leb_gt; exact Hlt).
    replace (Z.of_nat (List.length p) =? last_count 0 pre)%Z with false
      by (symmetry; apply Z.eqb_neq; exact Hne).
    reflexivity.
  - intros ps Hps. rewrite <- (app_nil_r ps), scan_grow by exact Hps. reflexivity.
  - reflexivity.
  - eexists. split; reflexivity.
Qed.

Lemma discovery_loop_done_witness :
  grows_below 20 0 [seq 1 3; seq 1 7] /\
  fst (scan 20 0 ([seq 1 3; seq 1 7] ++ seq 1 7 :: [])) = Ok (map Anchor (seq 1 7)).
Proof.
  assert (Hg : grows_below 20 0 [seq 1 3; seq 1 7])
    by (simpl; unfold count_of; simpl; repeat split; discriminate).
  split; [exact Hg|].
  destruct (discovery_loop_done 20 [seq 1 3; seq 1 7] (seq 1 7) [] Hg) as [_ [H _]].
  apply H; reflexivity.
Defined.

(** C1 counterexample: a negative target (accepted from [-t]) stops the
    loop at once and Python's [[:-1]] drops the last entry, so the result
    does not have "exactly t" entries. *)
Lemma discovery_negative_target :
  effective_total (Some (-1)%Z) = (-1)%Z /\
  fst (scan (-1) 0 [[1; 2; 3]%nat]) = Ok [Parent 1; Parent 2].
Proof. split; reflexivity. Qed.

(** C2: every failure raised while processing one entry (click, field
    extraction, coordinate parsing) is caught and only that entry is
    skipped: the batch is exactly the successfully extracted records, in
    discovery order. With three entries whose second one raises, the
    batch is the records of entries 1 and 3, in that order. *)
Theorem record_collector_isolation :
  (forall (site : Site) (ls : list Handle),
     fst (collect site ls []) = Ok (successes (map (entry_result site) ls))) /\
  entry_result ex_site (Parent 1) = Ok (good_record 1) /\
  entry_result ex_site (Parent 2) = Raise ValueError /\
  entry_result ex_site (Parent 3) = Ok (good_record 3) /\
  fst (collect ex_site [Parent 1; Parent 2; Parent 3] []) =
    Ok [good_record 1; good_record 3].
Proof.
  split; [intros site ls; apply collect_result|].
  split; [|split; [|split]]; vm_compute; reflexivity.
Qed.

(** C9: every record the collector produces has both a latitude and a
    longitude (assigned together from one parse of the URL), so the two
    are never present one without the other. *)
Theorem coordinates_paired (site : Site) (ls : list Handle) (bs : list Business)
    (H : fst (collect site ls []) = Ok bs) :
  Forall (fun b => exists la lo, latitude b = Some la /\ longitude b = Some lo) bs.
Proof.
  rewrite collect_result in H. injection H as <-.
  apply Forall_successes. intros h b Hb.
  apply process_entry_ok_inv in Hb as [b0 [[la lo] [_ [_ ->]]]].
  exists la, lo. split; reflexivity.
Qed.

Lemma coordinates_paired_witness :
  fst (collect ex_site [Parent 1; Parent 2] []) = Ok [good_record 1] /\
  Forall (fun b => exists la lo, latitude b = Some la /\ longitude b = Some lo)
         [good_record 1].
Proof.
  assert (H : fst (collect ex_site [Parent 1; Parent 2] []) = Ok [good_record 1])
    by (vm_compute; reflexivity).
  split; [exact H|].
  exact (coordinates_paired ex_site [Parent 1; Parent 2] [good_record 1] H).
Defined.

(** C10: a result cap of 0 is falsy, so the target becomes the default
    1,000,000 and the whole program behaves exactly as with no cap. *)
Theorem zero_total_is_default :
  effective_total (Some 0%Z) = 1000000%Z /\
  (forall search input_file site,
     main_prog search (Some 0%Z) input_file site = main_prog search None input_file site).
Proof. split; reflexivity. Qed.

(** C7 (evaluated at the failing input: no [-s] argument, no [input.txt]):
    the error message is printed before any browser work and the process
    ends through [sys.exit()], whose exit status is 0. *)
Theorem missing_input_exit_status (total : option Z) (site : Site) :
  main_prog None total None site = (Raise (SystemExit 0), [EvPrint MsgNoInput]) /\
  exit_status (fst (main_prog None total None site)) = Some 0%Z.
Proof. split; reflexivity. Qed.

(** C6 (as amended): there is no failure handling around one query: when
    processing a query raises, the exception leaves the query loop and the
    later queries are not processed. *)
Theorem query_failure_stops_batch (site : Site) (total : Z) (idx : nat)
    (q : str) (qs : list str) (e : Err)
    (H : fst (process_query site total idx q) = Raise e) :
  run_queries site total idx (q :: qs) = (Raise e, snd (process_query site total idx q)).
Proof.
  cbn [run_queries]. destruct (process_query site total idx q) as [r t].
  simpl in H. subst r. reflexivity.
Qed.

Lemma query_failure_stops_batch_witness :
  fst (process_query ex_site 1000000 0 (s2l "rare town")) = Raise TimeoutError /\
  run_queries ex_site 1000000 0 [s2l "rare town"; s2l "coffee shops"] =
    (Raise TimeoutError, snd (process_query ex_site 1000000 0 (s2l "rare town"))).
Proof.
  assert (H : fst (process_query ex_site 1000000 0 (s2l "rare town")) = Raise TimeoutError)
    by (vm_compute; reflexivity).
  split; [exact H|].
  exact (query_failure_stops_batch ex_site 1000000 0 (s2l "rare town")
           [s2l "coffee shops"] TimeoutError H).
Defined.

(** C6 counterexample: the batch "rare town", "coffee shops" read from
    [input.txt]; the first search shows no place link, [page.hover] times
    out, the run ends with status 1 and "coffee shops" is never searched. *)
Lemma query_failure_counterexample :
  main_prog None None (Some [s2l "rare town
"; s2l "coffee shops
"]) ex_site =
    (Raise TimeoutError,
     [EvLaunch; EvGoto (s2l "https://www.google.com/maps");
      EvPrint (MsgQuery 0 (s2l "rare town")); EvFill (s2l "rare town");
      EvPressEnter]) /\
  exit_status (Raise TimeoutError) = Some 1%Z.
Proof. split; [vm_compute; reflexivity | reflexivity]. Qed.

(** C3 (as amended): when a contact region (address, website, phone)
    exists, reading it does not raise and gives its text content as it is,
    not trimmed, or the empty string when that text is empty or null; each
    of the three fields of a produced record comes from its own region
    only. *)
Theorem contact_fields_text :
  (forall x : option str, text_or_empty [x] = (Ok (or_empty x), [])) /\
  (forall s : str, s <> [] -> or_empty (Some s) = s) /\
  or_empty (Some []) = [] /\ or_empty None = [] /\
  (forall (site : Site) (h : Handle) (b : Business) (xa xw xp : option str),
     fst (process_entry site h) = Ok b ->
     d_address (detail site h) = [xa] ->
     d_website (detail site h) = [xw] ->
     d_phone (detail site h) = [xp] ->
     address b = Some (or_empty xa) /\ website b = Some (or_empty xw) /\
     phone_number b = Some (or_empty xp)).
Proof.
  split; [exact text_or_empty_single|].
  split; [intros [|c s] Hs; [contradiction|reflexivity]|].
  split; [reflexivity|]. split; [reflexivity|].
  intros site h b xa xw xp Hb Ha Hw Hp.
  apply process_entry_ok_inv in Hb as [b0 [c [Hb0 [_ ->]]]].
  apply build_business_ok_inv in Hb0
    as [addr [web [phone [rc [ra [Ha' [Hw' [Hp' [_ [_ ->]]]]]]]]]].
  rewrite Ha, text_or_empty_single in Ha'.
  rewrite Hw, text_or_empty_single in Hw'.
  rewrite Hp, text_or_empty_single in Hp'.
  simpl in Ha', Hw', Hp'. injection Ha' as <-. injection Hw' as <-.
  injection Hp' as <-. repeat split.
Qed.

Lemma contact_fields_text_witness :
  fst (process_entry ex_site (Parent 1)) = Ok (good_record 1) /\
  address (good_record 1) = Some (or_empty (Some (s2l "1 Main St"))).
Proof.
  assert (H : fst (process_entry ex_site (Parent 1)) = Ok (good_record 1))
    by (vm_compute; reflexivity).
  split; [exact H|].
  destruct contact_fields_text as [_ [_ [_ [_ Hrec]]]].
  apply (Hrec ex_site (Parent 1) (good_record 1) (Some (s2l "1 Main St"))
           (Some (s2l "cafe.example")) (Some (s2l "+1 555 0100")) H);
    reflexivity.
Defined.

(** C3 counterexample: the text " 1 Main St " is kept untrimmed; and with
    no address region the read times out, so the whole entry is dropped
    (its website and phone number are lost with it). *)
Lemma contact_fields_counterexample :
  match entry_result (site_with untrimmed_detail) (Parent 1) with
  | Ok b => address b = Some (s2l " 1 Main St ")
  | _ => False
  end /\
  py_strip (s2l " 1 Main St ") = s2l "1 Main St" /\
  entry_result (site_with no_address_detail) (Parent 1) = Raise TimeoutError /\
  fst (collect (site_with no_address_detail) [Parent 1] []) = Ok [].
Proof. repeat split; vm_compute; reflexivity. Qed.

(** C8: when the rating image exists, reviewsAverage is [float] of the
    first whitespace-separated token of its aria-label with ',' replaced
    by '.' (a parse failure raises and drops the entry); "4,5 stars" gives
    4.5; when the image is absent reviewsAverage is absent. *)
Theorem reviews_average_rule :
  (forall (l tok : str) (rest : list str) (f : PyFloat),
     py_split_ws l = tok :: rest ->
     py_float (py_replace_char ","%char (s2l ".") tok) = Some f ->
     fst (read_reviews_average [Some l]) = Ok (Some f)) /\
  (forall (l tok : str) (rest : list str),
     py_split_ws l = tok :: rest ->
     py_float (py_replace_char ","%char (s2l ".") tok) = None ->
     fst (read_reviews_average [Some l]) = Raise ValueError) /\
  fst (read_reviews_average []) = Ok None /\
  fst (read_reviews_average [Some (s2l "4,5 stars")]) = Ok (py_float (s2l "4.5")) /\
  py_float (s2l "4.5") = Some (PFin false 45 (-1)) /\
  (forall (site : Site) (h : Handle) (b : Business),
     fst (process_entry site h) = Ok b ->
     d_rating_imgs (detail site h) = [] -> reviews_average b = None) /\
  (forall (site : Site) (h : Handle) (b : Business) (l : str),
     fst (process_entry site h) = Ok b ->
     d_rating_imgs (detail site h) = [Some l] ->
     exists tok rest, py_split_ws l = tok :: rest /\
       reviews_average b = py_float (py_replace_char ","%char (s2l ".") tok)).
Proof.
  split; [|split; [|split; [|split; [|split; [|split]]]]].
  - intros l tok rest f Hs Hf. unfold read_reviews_average.
    change (loc_count [Some l] >? 0)%Z with true.
    cbv [bind of_option ret raise fst snd read_one py_index nth_error].
    rewrite Hs. cbv [nth_error]. rewrite Hf. reflexivity.
  - intros l tok rest Hs Hf. unfold read_reviews_average.
    change (loc_count [Some l] >? 0)%Z with true.
    cbv [bind of_option ret raise fst snd read_one py_index nth_error].
    rewrite Hs. cbv [nth_error]. rewrite Hf. reflexivity.
  - reflexivity.
  - vm_compute. reflexivity.
  - vm_compute. reflexivity.
  - intros site h b Hb Hr.
    apply process_entry_ok_inv in Hb as [b0 [c [Hb0 [_ ->]]]].
    apply build_business_ok_inv in Hb0
      as [addr [web [phone [rc [ra [_ [_ [_ [_ [Hra ->]]]]]]]]]].
    rewrite Hr in Hra. simpl in Hra. injection Hra as <-. reflexivity.
  - intros site h b l Hb Hr.
    apply process_entry_ok_inv in Hb as [b0 [c [Hb0 [_ ->]]]].
    apply build_business_ok_inv in Hb0
      as [addr [web [phone [rc [ra [_ [_ [_ [_ [Hra ->]]]]]]]]]].
    rewrite Hr in Hra. unfold read_reviews_average in Hra.
    change (loc_count [Some l] >? 0)%Z with true in Hra.
    cbv [bind of_option ret raise fst snd read_one py_index nth_error] in Hra.
    destruct (py_split_ws l) as [|tok rest]; [discriminate|].
    exists tok, rest. split; [reflexivity|]. cbn [reviews_average set_coordinates].
    destruct (py_float (py_replace_char ","%char (s2l ".") tok)); simpl in Hra;
      [injection Hra as <-; reflexivity | discriminate].
Qed.

Lemma reviews_average_rule_witness :
  py_split_ws (s2l "4,5 stars") = s2l "4,5" :: [s2l "stars"] /\
  fst (read_reviews_average [Some (s2l "4,5 stars")]) = Ok (Some (PFin false 45 (-1))).
Proof.
  assert (Hs : py_split_ws (s2l "4,5 stars") = s2l "4,5" :: [s2l "stars"])
    by reflexivity.
  split; [exact Hs|].
  destruct reviews_average_rule as [Hrule _].
  exact (Hrule (s2l "4,5 stars") (s2l "4,5") [s2l "stars"] (PFin false 45 (-1))
           Hs (eq_refl _)).
Defined.

(** C4 (as amended): for [prefix/@<lat>,<lng>,<rest>] with float literals
    [<lat>], [<lng>] and no further [/@] in [<rest>] the parser returns
    [(<lat>, <lng>)] ([prefix] may contain [/@]). It reads the text after
    the LAST [/@] (the whole URL when there is none) up to the next ['/'],
    and fails exactly when that text has fewer than two comma-separated
    tokens or one of the first two is not a float; a URL without [/@]
    starting with a scheme such as [https:] therefore fails. *)
Theorem coordinate_parser_contract :
  (forall (p lat lng rest : str) (x y : PyFloat),
     ~ In "/"%char lat -> ~ In ","%char lat ->
     ~ In "/"%char lng -> ~ In ","%char lng ->
     contains marker rest = false ->
     py_float lat = Some x -> py_float lng = Some y ->
     fst (extract_coordinates_from_url
            (p ++ marker ++ lat ++ [","%char] ++ lng ++ [","%char] ++ rest))
     = Ok (x, y)) /\
  (forall url : str,
     (exists c, fst (extract_coordinates_from_url url) = Ok c) <->
     (exists a b r, py_split (s2l ",") (coord_segment url) = a :: b :: r /\
                    py_float a <> None /\ py_float b <> None)) /\
  (forall r : str, contains marker r = false ->
     exists e, fst (extract_coordinates_from_url (s2l "https:" ++ r)) = Raise e) /\
  fst (extract_coordinates_from_url (s2l "prefix/@12.34,-56.78,rest"))
    = Ok (PFin false 1234 (-2), PFin true 5678 (-2)).
Proof.
  split; [exact extract_coords_shape|].
  split; [|split; [|vm_compute; reflexivity]].
  - intros url. unfold extract_coordinates_from_url.
    change (hd [] (py_split (s2l "/") (py_last (py_split (s2l "/@") url))))
      with (coord_segment url).
    destruct (py_split (s2l ",") (coord_segment url)) as [|a [|b r]].
    + split; [intros [c Hc]; discriminate | intros (a & b & r & Hx & _); discriminate].
    + cbn [hd py_index nth_error].
      split; [|intros (a' & b & r & Hx & _); discriminate].
      intros [c Hc]. cbv [bind of_option ret raise fst snd] in Hc.
      destruct (py_float a); discriminate Hc.
    + cbn [hd py_index nth_error]. split.
      * intros [c Hc]. exists a, b, r. split; [reflexivity|].
        cbv [bind of_option ret raise fst snd] in Hc.
        destruct (py_float a); [|discriminate Hc].
        destruct (py_float b); [|discriminate Hc]. split; discriminate.
      * intros (a' & b' & r' & Hx & Ha & Hb). injection Hx as <- <- <-.
        cbv [bind of_option ret raise fst snd].
        destruct (py_float a); [|contradiction].
        destruct (py_float b); [|contradiction]. eexists. reflexivity.
  - intros r Hr. unfold extract_coordinates_from_url.
    assert (Hfree : contains marker (s2l "https:" ++ r) = false).
    { change marker with ("/"%char :: ["@"%char]).
      rewrite contains_app_skip; [exact Hr|].
      simpl. intros [H|[H|[H|[H|[H|[H|[]]]]]]]; discriminate. }
    assert (Hlast : py_last (py_split marker (s2l "https:" ++ r)) = s2l "https:" ++ r).
    { unfold py_last, py_split. rewrite split_go_free by exact Hfree. reflexivity. }
    change (s2l "/@") with marker. rewrite Hlast.
    unfold py_split. change (s2l "/") with ["/"%char].
    rewrite split1_skip by (simpl; intros [H|[H|[H|[H|[H|[H|[]]]]]]]; discriminate).
    rewrite split1_hd. change (s2l ",") with [","%char].
    cbn [rev app hd].
    rewrite split1_skip by (simpl; intros [H|[H|[H|[H|[H|[H|[]]]]]]]; discriminate).
    rewrite split1_hd. cbn [rev app].
    eexists. reflexivity.
Qed.

Lemma coordinate_parser_contract_witness :
  fst (extract_coordinates_from_url
         (s2l "https://maps/place/X" ++ marker ++ s2l "12.34" ++ [","%char]
              ++ s2l "-56.78" ++ [","%char] ++ s2l "17z/data"))
  = Ok (PFin false 1234 (-2), PFin true 5678 (-2)).
Proof.
  destruct coordinate_parser_contract as [Hshape _].
  apply Hshape; try reflexivity;
    simpl; intros H; repeat (destruct H as [H|H]; [discriminate H|]); exact H.
Defined.

(** C4 counterexample: a URL of the stated form whose rest contains a
    second [/@] fails, and a string without [/@] is parsed. *)
Lemma coordinate_parser_counterexample :
  fst (extract_coordinates_from_url (s2l "prefix/@12.34,-56.78,rest/@x"))
    = Raise ValueError /\
  fst (extract_coordinates_from_url (s2l "12.34,-56.78"))
    = Ok (PFin false 1234 (-2), PFin true 5678 (-2)).
Proof. split; vm_compute; reflexivity. Qed.

(** C5 (as amended): the parser reads the segment after the LAST [/@]:
    when the URL contains more than one marker, the coordinates returned
    are those following the last one. *)
Theorem coordinates_after_last_marker (pre lat lng rest : str) (x y : PyFloat)
    (Hmany : contains marker pre = true)
    (Hs1 : ~ In "/"%char lat) (Hc1 : ~ In ","%char lat)
    (Hs2 : ~ In "/"%char lng) (Hc2 : ~ In ","%char lng)
    (Hr : contains marker rest = false)
    (Hx : py_float lat = Some x) (Hy : py_float lng = Some y) :
  fst (extract_coordinates_from_url
         (pre ++ marker ++ lat ++ [","%char] ++ lng ++ [","%char] ++ rest))
  = Ok (x, y).
Proof. apply extract_coords_shape; assumption. Qed.

Lemma coordinates_after_last_marker_witness :
  fst (extract_coordinates_from_url
         (s2l "https://m/@1,2,3z/p" ++ marker ++ s2l "5" ++ [","%char]
              ++ s2l "6" ++ [","%char] ++ s2l "7z"))
  = Ok (PFin false 5 0, PFin false 6 0).
Proof.
  apply coordinates_after_last_marker; try reflexivity;
    simpl; intros H; repeat (destruct H as [H|H]; [discriminate H|]); exact H.
Defined.

(** C5 counterexample: with two markers the coordinates after the second
    one are returned, not those after the first. *)
Lemma first_marker_counterexample :
  fst (extract_coordinates_from_url (s2l "https://m/@1,2,3z/p/@5,6,7z"))
    = Ok (PFin false 5 0, PFin false 6 0).
Proof. vm_compute. reflexivity. Qed.

(* ================================================================== *)
(** * Further properties of the code *)

(** A computation that emits no event. *)
Definition silent {A} (m : M A) : Prop := snd m = [].

Lemma silent_bind {A B} (m : M A) (f : A -> M B) :
  silent m -> (forall a, silent (f a)) -> silent (bind m f).
Proof.
  unfold silent. intros Hm Hf. destruct m as [[a|e|] t]; simpl in *; auto.
  rewrite Hm, Hf. reflexivity.
Qed.

Ltac solve_silent :=
  repeat match goal with
  | |- forall _, _ => intro
  | |- silent (bind _ _) => apply silent_bind
  | |- silent (if ?c then _ else _) => destruct c
  | |- silent (match ?o with _ => _ end) => destruct o
  | |- silent _ => reflexivity
  end.

Lemma build_business_silent (site : Site) (h : Handle) : silent (build_business site h).
Proof.
  unfold build_business, text_or_empty, read_reviews_count, read_reviews_average,
    read_one, of_option.
  solve_silent.
Qed.

Lemma extract_silent (url : str) : silent (extract_coordinates_from_url url).
Proof. unfold extract_coordinates_from_url, of_option. solve_silent. Qed.

(** Processing one entry emits exactly its click. *)
Lemma process_entry_trace (site : Site) (h : Handle) :
  snd (process_entry site h) = [EvClick h].
Proof.
  assert (Hs : silent ((if click_ok site h then ret tt else raise TimeoutError);;
                      b <- build_business site h;;
                      c <- extract_coordinates_from_url (d_url (detail site h));;
                      ret (set_coordinates b c))).
  { apply silent_bind; [destruct (click_ok site h); reflexivity|]. intros _.
    apply silent_bind; [apply build_business_silent|]. intros b.
    apply silent_bind; [apply extract_silent|]. intros c. reflexivity. }
  unfold process_entry, silent in *. unfold bind at 1. simpl. rewrite Hs. reflexivity.
Qed.

Definition failure_message (r : Res Business) : list Event :=
  match r with
  | Raise e => [EvPrint (MsgError e)]
  | _ => []
  end.

(** X1: the collector clicks every listing once, in order, and prints one
    error message right after each listing whose processing failed. *)
Theorem collect_trace (site : Site) (ls : list Handle) (acc : list Business) :
  snd (collect site ls acc) =
  flat_map (fun h => EvClick h :: failure_message (entry_result site h)) ls.
Proof.
  revert acc. induction ls as [|h ls IH]; intros acc; [reflexivity|].
  cbn [collect flat_map]. pose proof (process_entry_no_exit site h) as Hne.
  pose proof (process_entry_trace site h) as Ht. unfold entry_result.
  destruct (process_entry site h) as [[b|e|] t]; unfold no_exit in Hne;
    cbn [fst snd] in Hne, Ht; subst t.
  - cbn [bind try_except ret fst snd failure_message app]. f_equal. apply IH.
  - cbn [bind try_except ret emit fst snd failure_message]. rewrite Hne.
    cbn [fst snd app bind]. f_equal. f_equal. apply IH.
  - contradiction.
Qed.

(** X2: if the address region matches several elements, Playwright's
    strict mode makes [text_content()] raise and the entry is dropped. *)
Theorem duplicate_address_region_fails (site : Site) (h : Handle)
    (x y : option str) (more : Matches)
    (Hclick : click_ok site h = true)
    (Hdup : d_address (detail site h) = x :: y :: more) :
  entry_result site h = Raise StrictModeError.
Proof.
  unfold entry_result, process_entry, build_business, text_or_empty.
  rewrite Hclick, Hdup. reflexivity.
Qed.

Definition dup_detail : Detail :=
  mkDetail [Some (s2l "1 Main St"); Some (s2l "Suite 2")] [] [] [] [] ex_url.

Lemma duplicate_address_region_fails_witness :
  click_ok (site_with dup_detail) (Parent 1) = true /\
  entry_result (site_with dup_detail) (Parent 1) = Raise StrictModeError.
Proof.
  split; [reflexivity|].
  apply (duplicate_address_region_fails (site_with dup_detail) (Parent 1)
           (Some (s2l "1 Main St")) (Some (s2l "Suite 2")) []); reflexivity.
Defined.



(** X4: with a positive target the loop never returns more than [t]
    listings, and they are the first [t] entries of an observed panel
    (resolved to parents) or a whole observed panel (as anchors). *)
Theorem scan_result_bound (t prev : Z) (ps : list (list nat)) (ls : list Handle)
    (Ht : (0 < t)%Z) (H : fst (scan t prev ps) = Ok ls) :
  (List.length ls <= Z.to_nat t)%nat /\
  exists p, In p ps /\ (ls = map Parent (firstn (Z.to_nat t) p) \/ ls = map Anchor p).
Proof.
  revert prev H. induction ps as [|p ps IH]; intros prev H; [discriminate|].
  simpl in H.
  destruct (t <=? Z.of_nat (List.length p))%Z eqn:E1.
  - unfold py_slice_to in H.
    replace (0 <=? t)%Z with true in H by (symmetry; apply Z.leb_le; lia).
    simpl in H. injection H as <-.
    split; [rewrite length_map, length_firstn; lia|].
    exists p. split; [left; reflexivity | left; reflexivity].
  - apply Z.leb_gt in E1.
    destruct (Z.of_nat (List.length p) =? prev)%Z.
    + simpl in H. injection H as <-.
      split; [rewrite length_map; lia|].
      exists p. split; [left; reflexivity | right; reflexivity].
    + simpl in H. apply IH in H as [Hlen [p' [Hin Hp']]].
      split; [exact Hlen|]. exists p'. split; [right; exact Hin | exact Hp'].
Qed.

Lemma scan_result_bound_witness :
  fst (scan 2 0 [seq 1 3]) = Ok [Parent 1; Parent 2] /\
  (List.length [Parent 1; Parent 2] <= Z.to_nat 2)%nat.
Proof.
  assert (H : fst (scan 2 0 [seq 1 3]) = Ok [Parent 1; Parent 2]) by reflexivity.
  split; [exact H|].
  exact (proj1 (scan_result_bound 2 0 [seq 1 3] _ ltac:(lia) H)).
Defined.

(** X5: since [previously_counted] starts at 0, a first scroll that finds no
    place link ends the loop at once with no listings. *)
Theorem scan_first_empty (t : Z) (ps : list (list nat)) (Ht : (0 < t)%Z) :
  fst (scan t 0 ([] :: ps)) = Ok [].
Proof.
  simpl. replace (t <=? 0)%Z with false by (symmetry; apply Z.leb_gt; lia).
  reflexivity.
Qed.

Lemma scan_first_empty_witness :
  fst (scan 1000000 0 ([] :: [seq 1 5])) = Ok [].
Proof. apply scan_first_empty. lia. Defined.










(** X8: a non-empty [-s] argument is the only query and [input.txt] is then
    never consulted; an empty [-s ""] is treated as no argument. *)
Theorem search_argument_selection :
  (forall (s : str) (total : option Z) (f1 f2 : option (list str)) (site : Site),
     s <> [] -> main_prog (Some s) total f1 site = main_prog (Some s) total f2 site) /\
  (forall (total : option Z) (f : option (list str)) (site : Site),
     main_prog (Some []) total f site = main_prog None total f site).
Proof.
  split; [|reflexivity].
  intros s total f1 f2 site Hs. destruct s; [contradiction|reflexivity].
Qed.

Lemma search_argument_selection_witness :
  main_prog (Some (s2l "coffee shops")) None None ex_site =
  main_prog (Some (s2l "coffee shops")) None (Some [s2l "rare town"]) ex_site.
Proof. apply (proj1 search_argument_selection). discriminate. Defined.

(** X9: output file names start with [google_maps_data_] and contain no
    space: every space of the query becomes ['_']. *)
Theorem file_name_has_no_space (q : str) :
  is_prefix (s2l "google_maps_data_") (file_name q) = true /\
  ~ In " "%char (file_name q).
Proof.
  split.
  - unfold file_name. generalize (py_replace_char " "%char (s2l "_") q).
    intros r. reflexivity.
  - unfold file_name, py_replace_char. intros Hin.
    apply in_app_or in Hin as [Hin|Hin].
    + simpl in Hin. repeat (destruct Hin as [Hin|Hin]; [discriminate Hin|]).
      exact Hin.
    + apply in_flat_map in Hin as [c [_ Hc]].
      destruct (Ascii.eqb c " "%char) eqn:E.
      * destruct Hc as [Hc|[]]. discriminate Hc.
      * destruct Hc as [Hc|[]]. subst c. rewrite Ascii.eqb_refl in E. discriminate E.
Qed.

Lemma lstrip_split (s : str) :
  exists pre, s = pre ++ lstrip s /\ all_space pre = true.
Proof.
  induction s as [|c s IH]; [exists []; split; reflexivity|].
  cbn [lstrip]. destruct (is_space c) eqn:E.
  - destruct IH as [pre [Hs Hp]]. exists (c :: pre).
    split; [rewrite Hs at 1; reflexivity|]. cbn. rewrite E. exact Hp.
  - exists []. split; reflexivity.
Qed.

Lemma lstrip_head (s : str) (c : ascii) (rest : str) :
  lstrip s = c :: rest -> is_space c = false.
Proof.
  induction s as [|d s IH]; cbn [lstrip]; [discriminate|].
  destruct (is_space d) eqn:E; [exact IH|]. intros H. injection H as -> _. exact E.
Qed.

Lemma all_space_rev (s : str) : all_space (rev s) = all_space s.
Proof.
  unfold all_space. induction s as [|c s IH]; [reflexivity|].
  cbn [rev forallb]. rewrite forallb_app, IH. cbn [forallb].
  rewrite andb_true_r, andb_comm. reflexivity.
Qed.

Lemma lstrip_all_space (s : str) : all_space s = true -> lstrip s = [].
Proof.
  unfold all_space. induction s as [|c s IH]; [reflexivity|].
  cbn [forallb lstrip]. intros H. apply andb_prop in H as [Hc Hs].
  rewrite Hc. exact (IH Hs).
Qed.

(** X10: every query is stripped before use: the search box is filled with
    [q.strip()] (announced first, filled second, whatever happens later),
    which is [q] with a leading and a trailing run of whitespace removed,
    and which neither starts nor ends with whitespace. A whitespace-only
    line, such as a blank line of [input.txt], becomes the empty query. *)
Theorem query_is_stripped (site : Site) (total : Z) (idx : nat) (q : str) :
  firstn 2 (snd (process_query site total idx q)) =
    [EvPrint (MsgQuery idx (py_strip q)); EvFill (py_strip q)] /\
  (exists pre suf, q = pre ++ py_strip q ++ suf /\
     all_space pre = true /\ all_space suf = true) /\
  (forall c rest, py_strip q = c :: rest -> is_space c = false) /\
  (forall c rest, rev (py_strip q) = c :: rest -> is_space c = false) /\
  (all_space q = true -> py_strip q = []).
Proof.
  split; [|split; [|split; [|split]]].
  - unfold process_query. cbn [bind emit fst snd app firstn]. reflexivity.
  - destruct (lstrip_split q) as [pre [Hq Hp]].
    destruct (lstrip_split (rev (lstrip q))) as [pre2 [Hr Hp2]].
    exists pre, (rev pre2). split; [|split; [exact Hp|rewrite all_space_rev; exact Hp2]].
    unfold py_strip. rewrite Hq at 1. f_equal.
    rewrite <- (rev_involutive (lstrip q)) at 1. rewrite Hr at 1.
    rewrite rev_app_distr. reflexivity.
  - unfold py_strip. intros c rest H.
    destruct (lstrip_split (rev (lstrip q))) as [pre2 [Hr Hp2]].
    assert (Hl : lstrip q = c :: rest ++ rev pre2).
    { rewrite <- (rev_involutive (lstrip q)) at 1. rewrite Hr at 1.
      rewrite rev_app_distr, H. reflexivity. }
    exact (lstrip_head q c _ Hl).
  - unfold py_strip. rewrite rev_involutive. apply lstrip_head.
  - intros H. unfold py_strip. rewrite (lstrip_all_space q H). reflexivity.
Qed.

(** The browser with the listings' [aria-label] attribute replaced. *)
Definition relabel (site : Site) (f : Handle -> option str) : Site :=
  mkSite (hover_ok site) (panels site) f (click_ok site) (detail site).

Definition rename (n : str) (b : Business) : Business :=
  mkBusiness (Some n) (address b) (website b) (phone_number b)
             (reviews_count b) (reviews_average b) (latitude b) (longitude b).

Lemma bind_fst {A B} (m : M A) (f : A -> M B) :
  fst (bind m f) = match fst m with
                   | Ok a => fst (f a) | Raise e => Raise e | Stuck => Stuck end.
Proof. destruct m as [[a|e|] t]; reflexivity. Qed.

(** X11: the listing's [aria-label] only gives the record's name: an entry
    succeeds or fails (with the same exception) whatever its label is,
    and a produced record's name is the label, or the empty string when
    the label is absent or empty. *)
Theorem name_from_label (site : Site) (f : Handle -> option str) (h : Handle) :
  fst (process_entry (relabel site f) h) =
    match fst (process_entry site h) with
    | Ok b => Ok (rename (or_empty (f h)) b)
    | r => r
    end /\
  (forall b, fst (process_entry site h) = Ok b ->
             name b = Some (or_empty (label site h))).
Proof.
  split.
  - unfold process_entry, build_business. rewrite ?bind_fst.
    unfold relabel; cbn [emit fst click_ok detail label].
    destruct (click_ok site h); cbn [fst ret raise]; [|reflexivity].
    rewrite ?bind_fst.
    destruct (fst (text_or_empty (d_address (detail site h)))); [|reflexivity..].
    rewrite ?bind_fst.
    destruct (fst (text_or_empty (d_website (detail site h)))); [|reflexivity..].
    rewrite ?bind_fst.
    destruct (fst (text_or_empty (d_phone (detail site h)))); [|reflexivity..].
    rewrite ?bind_fst.
    destruct (fst (read_reviews_count (d_review_spans (detail site h)))); [|reflexivity..].
    rewrite ?bind_fst.
    destruct (fst (read_reviews_average (d_rating_imgs (detail site h)))); [|reflexivity..].
    cbn [fst ret]. rewrite ?bind_fst.
    destruct (fst (extract_coordinates_from_url (d_url (detail site h)))); reflexivity.
  - intros b Hb. apply process_entry_ok_inv in Hb as [b0 [c [Hb0 [_ ->]]]].
    apply build_business_ok_inv in Hb0 as [addr [web [phone [rc [ra [_ [_ [_ [_ [_ ->]]]]]]]]]].
    reflexivity.
Qed.

Lemma name_from_label_witness :
  fst (process_entry ex_site (Parent 1)) = Ok (good_record 1) /\
  name (good_record 1) = Some (s2l "Place 1") /\
  fst (process_entry (relabel ex_site (fun _ => None)) (Parent 1)) =
    Ok (rename [] (good_record 1)).
Proof.
  assert (H : fst (process_entry ex_site (Parent 1)) = Ok (good_record 1))
    by (vm_compute; reflexivity).
  split; [exact H|]. split.
  - apply (proj2 (name_from_label ex_site (fun _ => None) (Parent 1)) _ H).
  - rewrite (proj1 (name_from_label ex_site (fun _ => None) (Parent 1)) ), H.
    reflexivity.
Defined.
